(** * fix_class_context.py: the read / replace / write pipeline

    The script opens one file in text mode, reads all of it, runs
    [str.replace] over the text and writes the text back to the same path.
    This development embeds the three steps and proves what the
    specification says of the pipeline.

    - [PyStr] is Python's [str.replace] on strings of characters.
    - [PyIO] is text-mode [open], [read] and [write] over a small state
      of the file system.  A file is the sequence of characters stored
      in it; whether its bytes decode is a flag of the file.  Reading
      goes through universal newlines and writing through [os.linesep],
      as [open] does when no [newline] argument is given; the separator
      is the POSIX one.
    - [fix_class_context] is the module body; [applyPatch] is the same
      pipeline with the path and a list of rules as arguments. *)

From Stdlib Require Import String Ascii List Arith Lia Bool.
From stdpp Require Import base option gmap strings.

Local Open Scope string_scope.

(** ** Python strings *)

Module PyStr.

(** [s.startswith(p)]: [p] is a prefix of [s]. *)
Fixpoint startswith (p s : string) : bool :=
  match p, s with
  | EmptyString, _ => true
  | String _ _, EmptyString => false
  | String a p', String b s' => if Ascii.eqb a b then startswith p' s' else false
  end.

(** [s[n:]]. *)
Fixpoint drop (n : nat) (s : string) : string :=
  match n, s with
  | O, _ => s
  | S _, EmptyString => EmptyString
  | S k, String _ s' => drop k s'
  end.

(** [p in s]: [p] occurs in [s] at some offset.  The empty string occurs
    in every string, as in Python. *)
Fixpoint contains (p s : string) : bool :=
  startswith p s ||
  match s with
  | EmptyString => false
  | String _ s' => contains p s'
  end.

(** The scan of [str.replace] for a non-empty pattern.  The text is read
    left to right; [skip] counts the characters of the current match that
    are still to be passed over.  At a position where the pattern starts
    (and no match is being passed over) the replacement is emitted and the
    whole match is skipped, so the scan resumes right behind it; elsewhere
    the character is copied. *)
Fixpoint replace_scan (old new : string) (skip : nat) (s : string) : string :=
  match s with
  | EmptyString => EmptyString
  | String c s' =>
      match skip with
      | S k => replace_scan old new k s'
      | O =>
          if startswith old s
          then new +:+ replace_scan old new (String.length old - 1) s'
          else String c (replace_scan old new 0 s')
      end
  end.

(** [str.replace] with an empty pattern: the replacement goes in front of
    every character and once more at the end. *)
Fixpoint interleave (new s : string) : string :=
  match s with
  | EmptyString => new
  | String c s' => new +:+ String c (interleave new s')
  end.

(** [s.replace(old, new)] (no count argument). *)
Definition replace (old new s : string) : string :=
  match old with
  | EmptyString => interleave new s
  | String _ _ => replace_scan old new 0 s
  end.

End PyStr.

(** ** Substitution rules *)

(** A rule is the pair of arguments of one [content.replace(old, new)]. *)
Definition rule : Type := string * string.

Definition apply_rule (r : rule) (content : string) : string :=
  PyStr.replace (fst r) (snd r) content.

(** A list of rules stands for that many statements
    [content = content.replace(old, new)], one after the other: the
    script has one, the specification's operation takes any number. *)
Definition apply_rules (rules : list rule) (content : string) : string :=
  fold_left (fun c r => apply_rule r c) rules content.

(** ** Text-mode file input and output *)

Module PyIO.

Definition CR : ascii := ascii_of_nat 13.
Definition LF : ascii := ascii_of_nat 10.

(** [open(path, 'r')] has [newline=None]: on input, a carriage return
    followed by a line feed, and a carriage return alone, both come out of
    [read()] as one line feed. *)
Fixpoint universal_newlines (s : string) : string :=
  match s with
  | EmptyString => EmptyString
  | String c s' =>
      if Ascii.eqb c CR then
        match s' with
        | String d s'' =>
            if Ascii.eqb d LF then String LF (universal_newlines s'')
            else String LF (universal_newlines s')
        | EmptyString => String LF EmptyString
        end
      else String c (universal_newlines s')
  end.

(** [os.linesep].  The script is a POSIX executable (its first line is
    [#!/usr/bin/env python3]), where the line separator is a line feed. *)
Definition os_linesep : string := String LF EmptyString.

(** [open(path, 'w')] has [newline=None]: on output every line feed is
    written as [os.linesep]. *)
Fixpoint translate_newlines (linesep s : string) : string :=
  match s with
  | EmptyString => EmptyString
  | String c s' =>
      if Ascii.eqb c LF then linesep +:+ translate_newlines linesep s'
      else String c (translate_newlines linesep s')
  end.

(** [s[:n]]. *)
Fixpoint take (n : nat) (s : string) : string :=
  match n, s with
  | O, _ => EmptyString
  | S _, EmptyString => EmptyString
  | S k, String c s' => String c (take k s')
  end.

(** The exceptions the I/O calls of the script can raise: a missing file,
    a refused permission, bytes that do not decode, a device that is
    full. *)
Inductive exn : Type :=
  | FileNotFoundError
  | PermissionError
  | UnicodeDecodeError
  | OSError_ENOSPC.

(** The error kinds of the specification. *)
Inductive PatchError : Type :=
  | NotFound
  | AccessDenied
  | DecodeError
  | WriteFailure.

Definition error_kind (e : exn) : PatchError :=
  match e with
  | FileNotFoundError => NotFound
  | PermissionError => AccessDenied
  | UnicodeDecodeError => DecodeError
  | OSError_ENOSPC => WriteFailure
  end.

(** A regular file: the characters stored in it, whether its permissions
    let the process read it and write it (a refusal is [EACCES], which
    [open] raises as [PermissionError]; other refusals of the system, a
    file system mounted read-only among them, are not among the states),
    and whether its bytes decode under the encoding [open] uses ([data]
    holds the decoded characters). *)
Record file : Type := File {
  data : string;
  readable : bool;
  writable : bool;
  decodable : bool
}.

Definition with_data (f : file) (s : string) : file :=
  {| data := s; readable := readable f; writable := writable f;
     decodable := decodable f |}.

(** What the process did to the file system, oldest first. *)
Inductive event : Type :=
  | OpenedForRead (path : string)
  | ReadAll (path : string)
  | Truncated (path : string)
  | Wrote (path : string) (chars : string).

(** The state the script runs in: the files by path, the number of
    characters the device still accepts ([None]: no limit) and the log of
    file-system events. *)
Record world : Type := World {
  files : gmap string file;
  room : option nat;
  log : list event
}.

Definition set_file (path : string) (f : file) (w : world) : world :=
  {| files := <[path := f]> (files w); room := room w; log := log w |}.

Definition emit (e : event) (w : world) : world :=
  {| files := files w; room := room w; log := log w ++ [e] |}.

(** A computation returns a value or raises; either way it leaves a world
    behind: what was done before an exception stays done. *)
Inductive result (A : Type) : Type :=
  | Ok (a : A)
  | Raise (e : exn).
Arguments Ok {A} a.
Arguments Raise {A} e.

Definition io (A : Type) : Type := world -> result A * world.

Definition ret {A : Type} (a : A) : io A := fun w => (Ok a, w).

Definition bind {A B : Type} (m : io A) (k : A -> io B) : io B :=
  fun w =>
    match m w with
    | (Ok a, w') => k a w'
    | (Raise e, w') => (Raise e, w')
    end.

(** An open file object: its path and the file it was opened on. *)
Record handle : Type := Handle {
  h_path : string;
  h_file : file
}.

(** [open(path, 'r')]. *)
Definition open_r (path : string) : io handle :=
  fun w =>
    match files w !! path with
    | None => (Raise FileNotFoundError, w)
    | Some f =>
        if readable f
        then (Ok (Handle path f), emit (OpenedForRead path) w)
        else (Raise PermissionError, w)
    end.

(** [f.read()]: the whole file, decoded, with universal newlines. *)
Definition read (h : handle) : io string :=
  fun w =>
    if decodable (h_file h)
    then (Ok (universal_newlines (data (h_file h))), emit (ReadAll (h_path h)) w)
    else (Raise UnicodeDecodeError, w).

(** [open(path, 'w')]: an existing file is emptied at once, a missing one
    is created empty; a file whose permissions refuse writing is left
    alone and the call raises [PermissionError]. *)
Definition open_w (path : string) : io handle :=
  fun w =>
    match files w !! path with
    | Some f =>
        if writable f
        then let f' := with_data f EmptyString in
             (Ok (Handle path f'), emit (Truncated path) (set_file path f' w))
        else (Raise PermissionError, w)
    | None =>
        let f' := File EmptyString true true true in
        (Ok (Handle path f'), emit (Truncated path) (set_file path f' w))
    end.

(** [f.write(s)] followed by the flush at the end of the [with] block.
    When the device takes fewer characters than the text has, the ones it
    took are in the file and the call raises.  Returns [len(s)].  The text
    is taken to encode: it is made of characters the codec decoded and of
    the characters of the rules, and a replacement the codec cannot
    encode is not among the states. *)
Definition write (h : handle) (s : string) : io nat :=
  fun w =>
    let out := translate_newlines os_linesep s in
    let fits :=
      match room w with
      | None => true
      | Some k => Nat.leb (String.length out) k
      end in
    if fits
    then (Ok (String.length s),
          emit (Wrote (h_path h) out) (set_file (h_path h) (with_data (h_file h) out) w))
    else
      let part := take (default 0 (room w)) out in
      (Raise OSError_ENOSPC,
       emit (Wrote (h_path h) part) (set_file (h_path h) (with_data (h_file h) part) w)).

End PyIO.

Import PyIO.

Notation "'let*' x ':=' m 'in' k" := (bind m (fun x => k))
  (at level 10, x name, m at level 100, k at level 200).

(** ** The script *)

Definition target : string := "src/class_context_extractor.cpp".

Definition include_set : string := "#include <set>".

(** The module body of [fix_class_context.py], statement by statement. *)
Definition fix_class_context : io unit :=
  let* f := open_r target in
  let* content := read f in
  let content := PyStr.replace include_set include_set content in
  let* f := open_w target in
  let* _ := write f content in
  ret tt.

(** The same pipeline with the path and the list of replacements taken as
    arguments instead of written in place. *)
Definition applyPatch (path : string) (rules : list rule) : io unit :=
  let* f := open_r path in
  let* content := read f in
  let content := apply_rules rules content in
  let* f := open_w path in
  let* _ := write f content in
  ret tt.

(** The characters stored at a path, if there is a file. *)
Definition content_at (w : world) (path : string) : option string :=
  data <$> files w !! path.

(** Line ends, for writing test files down. *)
Definition cr : string := String CR EmptyString.
Definition lf : string := String LF EmptyString.
Definition crlf : string := String CR (String LF EmptyString).

(** Two lines, the first ended the DOS way and the second the POSIX way. *)
Definition dos_then_posix (line1 line2 : string) : string :=
  line1 +:+ crlf +:+ line2 +:+ lf.

(** The same two lines, both ended by a line feed. *)
Definition posix_lines (line1 line2 : string) : string :=
  line1 +:+ lf +:+ line2 +:+ lf.

(** A world with one ordinary file, nothing logged yet. *)
Definition one_file (path chars : string) (space : option nat) : world :=
  World {[ path := File chars true true true ]} space [].

(** A world with a second, read-only file, little room on the device and
    something in the log already. *)
Definition busy_world (path chars : string) : world :=
  World (<[ "g.txt" := File "other" true false true ]>
           {[ path := File chars true true true ]})
    (Some 10) [ReadAll "g.txt"].

(** What a successful run leaves in the file opened on [f]. *)
Definition written (rules : list rule) (f : file) : string :=
  translate_newlines os_linesep (apply_rules rules (universal_newlines (data f))).

(** The text has a carriage return in it. *)
Definition has_cr (s : string) : bool :=
  PyStr.contains (String CR EmptyString) s.

(** ** Replacement as the specification words it *)

(** [Replaced old new s t]: [t] is [s] with every non-overlapping occurrence
    of [old] replaced by [new], scanning left to right.  At the front of
    what is left to scan, either the pattern is there, is replaced, and
    the scan goes on behind it; or it is not there and one character is
    kept. *)
Inductive Replaced (old new : string) : string -> string -> Prop :=
  | Replaced_end : Replaced old new EmptyString EmptyString
  | Replaced_match (rest out : string) :
      Replaced old new rest out ->
      Replaced old new (old +:+ rest) (new +:+ out)
  | Replaced_keep (c : ascii) (rest out : string) :
      (forall u, String c rest <> old +:+ u) ->
      Replaced old new rest out ->
      Replaced old new (String c rest) (String c out).


(** [r] in front of every character of [s] in turn, and one more [r] at
    the end. *)
Definition insert_everywhere (r s : string) : string :=
  String.concat EmptyString
    (map (fun c => r +:+ String c EmptyString) (list_ascii_of_string s)) +:+ r.

(** ** Facts about strings *)

Section StringFacts.

Lemma str_app_nil (t : string) : EmptyString +:+ t = t.
Proof. reflexivity. Qed.

Lemma str_app_cons (c : ascii) (s t : string) :
  String c s +:+ t = String c (s +:+ t).
Proof. reflexivity. Qed.

Lemma str_app_empty_r (s : string) : s +:+ EmptyString = s.
Proof.
  induction s as [|c s IH]; [reflexivity |]. now rewrite str_app_cons, IH.
Qed.

Lemma str_app_assoc (a b c : string) : (a +:+ b) +:+ c = a +:+ (b +:+ c).
Proof.
  induction a as [|x a IH]; [reflexivity |]. now rewrite !str_app_cons, IH.
Qed.

Lemma str_length_app (a b : string) :
  String.length (a +:+ b) = String.length a + String.length b.
Proof.
  induction a as [|x a IH]; [reflexivity |].
  rewrite str_app_cons. cbn [String.length]. now rewrite IH.
Qed.

Lemma startswith_app (p t : string) : PyStr.startswith p (p +:+ t) = true.
Proof.
  induction p as [|a p IH]; [reflexivity |].
  rewrite str_app_cons. cbn [PyStr.startswith]. now rewrite Ascii.eqb_refl.
Qed.

Lemma startswith_drop (p s : string) :
  PyStr.startswith p s = true -> s = p +:+ PyStr.drop (String.length p) s.
Proof.
  revert s; induction p as [|a p IH]; intros s H; simpl in *.
  - reflexivity.
  - destruct s as [|b s]; [discriminate |].
    destruct (Ascii.eqb a b) eqn:E; [|discriminate].
    apply Ascii.eqb_eq in E; subst b. rewrite str_app_cons. f_equal. now apply IH.
Qed.

Lemma startswith_iff (p s : string) :
  PyStr.startswith p s = true <-> exists t, s = p +:+ t.
Proof.
  split.
  - intros H. eexists. now apply startswith_drop.
  - intros [t ->]. apply startswith_app.
Qed.

Lemma startswith_false (p s : string) :
  PyStr.startswith p s = false -> forall u, s <> p +:+ u.
Proof.
  intros H u ->. rewrite startswith_app in H. discriminate.
Qed.

Lemma length_pred (a : ascii) (p : string) :
  String.length (String a p) - 1 = String.length p.
Proof. cbn [String.length]. lia. Qed.

Lemma nonempty_cons (s : string) :
  s <> EmptyString -> exists a p, s = String a p.
Proof. destruct s as [|a p]; [congruence | now exists a, p]. Qed.

Lemma drop_app (p t : string) : PyStr.drop (String.length p) (p +:+ t) = t.
Proof. induction p as [|a p IH]; [reflexivity | exact IH]. Qed.

Lemma drop_empty (k : nat) : PyStr.drop k EmptyString = EmptyString.
Proof. destruct k; reflexivity. Qed.

End StringFacts.

(** ** The scan for a non-empty pattern *)

Section Scan.

Variables old new : string.
Hypothesis old_nonempty : old <> EmptyString.

(** Passing over [k] characters of a match is the scan of what comes after
    them. *)
Lemma replace_scan_skip (s : string) :
  forall k, PyStr.replace_scan old new k s
            = PyStr.replace_scan old new 0 (PyStr.drop k s).
Proof.
  induction s as [|c s IH]; intros k.
  - now rewrite drop_empty.
  - destruct k as [|k]; [reflexivity |]. simpl PyStr.drop.
    change (PyStr.replace_scan old new (S k) (String c s))
      with (PyStr.replace_scan old new k s).
    apply IH.
Qed.

(** Where the pattern starts, the replacement is emitted and the scan goes
    on behind the match. *)
Lemma replace_scan_match (rest : string) :
  PyStr.replace_scan old new 0 (old +:+ rest)
  = new +:+ PyStr.replace_scan old new 0 rest.
Proof.
  destruct (nonempty_cons old old_nonempty) as (a & p & Heq).
  pose proof (startswith_app old rest) as Hp.
  pose proof (drop_app old rest) as Hd.
  assert (Hl : String.length old - 1 = String.length p)
    by (rewrite Heq; apply length_pred).
  replace (old +:+ rest) with (String a (p +:+ rest)) in * by now rewrite Heq.
  cbn [PyStr.replace_scan]. rewrite Hp. f_equal.
  rewrite replace_scan_skip, Hl.
  rewrite Heq in Hd. cbn [String.length PyStr.drop] in Hd. now rewrite Hd.
Qed.

(** Where the pattern does not start, the character is kept. *)
Lemma replace_scan_keep (c : ascii) (rest : string) :
  PyStr.startswith old (String c rest) = false ->
  PyStr.replace_scan old new 0 (String c rest)
  = String c (PyStr.replace_scan old new 0 rest).
Proof. intros H. cbn [PyStr.replace_scan]. now rewrite H. Qed.

Lemma replace_nonempty (s : string) :
  PyStr.replace old new s = PyStr.replace_scan old new 0 s.
Proof.
  destruct (nonempty_cons old old_nonempty) as (a & p & Heq).
  unfold PyStr.replace. now rewrite Heq.
Qed.

(** The scan produces a text the specification's relation accepts. *)
Lemma Replaced_scan (s : string) :
  forall k, Replaced old new (PyStr.drop k s) (PyStr.replace_scan old new k s).
Proof.
  induction s as [|c s IH]; intros k.
  - rewrite drop_empty. destruct k; constructor.
  - destruct k as [|k]; [|apply IH].
    cbn [PyStr.drop PyStr.replace_scan].
    destruct (PyStr.startswith old (String c s)) eqn:E.
    + pose proof (startswith_drop _ _ E) as Hs.
      destruct (nonempty_cons old old_nonempty) as (a & p & Heq).
      assert (Hl : String.length old - 1 = String.length p)
        by (rewrite Heq; apply length_pred).
      assert (Hd : PyStr.drop (String.length old) (String c s)
                   = PyStr.drop (String.length p) s)
        by now rewrite Heq.
      rewrite Hd in Hs. rewrite Hl. rewrite Hs at 1.
      apply Replaced_match, IH.
    + apply Replaced_keep; [now apply startswith_false | apply (IH 0)].
Qed.

(** The relation accepts no other text. *)
Lemma Replaced_unique (s t : string) :
  Replaced old new s t -> t = PyStr.replace_scan old new 0 s.
Proof.
  induction 1 as [| rest out _ IH | c rest out Hno _ IH].
  - reflexivity.
  - now rewrite replace_scan_match, IH.
  - rewrite replace_scan_keep, IH; [reflexivity |].
    destruct (PyStr.startswith old (String c rest)) eqn:E; [|reflexivity].
    apply startswith_iff in E as [u Hu]. now destruct (Hno u).
Qed.

End Scan.

(** ** Patterns that are absent, patterns replaced by themselves *)

Section NoOp.

Lemma contains_cons (p : string) (c : ascii) (s : string) :
  PyStr.contains p (String c s) = false ->
  PyStr.startswith p (String c s) = false /\ PyStr.contains p s = false.
Proof.
  cbn [PyStr.contains]. intros H. now apply orb_false_iff in H.
Qed.

Lemma contains_empty (s : string) : PyStr.contains EmptyString s = true.
Proof. destruct s; reflexivity. Qed.

(** A pattern occurs exactly when the text splits around it. *)
Lemma contains_iff (p s : string) :
  PyStr.contains p s = true <-> exists l r, s = l +:+ p +:+ r.
Proof.
  split.
  - induction s as [|c s IH]; cbn [PyStr.contains]; intros H.
    + rewrite orb_false_r in H. apply startswith_iff in H as [t ->].
      now exists EmptyString, t.
    + apply orb_true_iff in H as [H|H].
      * apply startswith_iff in H as [t ->]. now exists EmptyString, t.
      * destruct (IH H) as (l & r & ->). now exists (String c l), r.
  - intros (l & r & ->). induction l as [|c l IH].
    + rewrite str_app_nil. destruct (p +:+ r) eqn:E; cbn [PyStr.contains];
        rewrite <- E, startswith_app; reflexivity.
    + change (String c l +:+ p +:+ r) with (String c (l +:+ p +:+ r)).
      cbn [PyStr.contains]. rewrite IH. apply orb_true_r.
Qed.

(** A pattern that does not occur is left alone. *)
Lemma replace_absent (old new s : string) :
  PyStr.contains old s = false -> PyStr.replace old new s = s.
Proof.
  destruct old as [|a p].
  - now rewrite contains_empty.
  - unfold PyStr.replace. induction s as [|c s IH]; intros H; [reflexivity |].
    apply contains_cons in H as [H1 H2].
    rewrite replace_scan_keep by exact H1. now rewrite IH.
Qed.

Lemma interleave_empty (s : string) : PyStr.interleave EmptyString s = s.
Proof.
  induction s as [|c s IH]; [reflexivity |].
  cbn [PyStr.interleave]. now rewrite str_app_nil, IH.
Qed.

(** Replacing a pattern by itself gives the text back. *)
Lemma replace_same (p s : string) : PyStr.replace p p s = s.
Proof.
  destruct p as [|a p]; [apply interleave_empty |].
  unfold PyStr.replace.
  enough (H : forall k, PyStr.replace_scan (String a p) (String a p) k s
                        = PyStr.drop k s) by apply (H 0).
  induction s as [|c s IH]; intros k.
  - now rewrite drop_empty.
  - destruct k as [|k]; [|apply IH].
    cbn [PyStr.replace_scan PyStr.drop].
    destruct (PyStr.startswith (String a p) (String c s)) eqn:E.
    + rewrite IH, length_pred.
      apply startswith_drop in E. cbn [String.length PyStr.drop] in E.
      now rewrite <- E.
    + now rewrite (IH 0).
Qed.

End NoOp.

(** ** Facts about text-mode input and output *)

Section IOFacts.

Lemma universal_newlines_id (s : string) :
  has_cr s = false -> universal_newlines s = s.
Proof.
  unfold has_cr. induction s as [|c s IH]; intros H; [reflexivity |].
  apply contains_cons in H as [H1 H2]. cbn [PyStr.startswith] in H1.
  cbn [universal_newlines]. rewrite Ascii.eqb_sym.
  destruct (Ascii.eqb CR c); [discriminate |]. now rewrite IH.
Qed.

Lemma translate_newlines_posix (s : string) :
  translate_newlines os_linesep s = s.
Proof.
  induction s as [|c s IH]; [reflexivity |]. cbn [translate_newlines].
  rewrite IH. destruct (Ascii.eqb c LF) eqn:E; [|reflexivity].
  apply Ascii.eqb_eq in E. now subst c.
Qed.

Lemma written_eq (rules : list rule) (f : file) :
  written rules f = apply_rules rules (universal_newlines (data f)).
Proof. apply translate_newlines_posix. Qed.


Lemma take_length (s : string) (k : nat) :
  k <= String.length s -> String.length (take k s) = k.
Proof.
  revert k; induction s as [|c s IH]; intros k H; destruct k; try reflexivity.
  - cbn [String.length] in H. lia.
  - cbn [take String.length]. rewrite IH; [reflexivity | cbn [String.length] in H; lia].
Qed.

(** The script is the pipeline at its own path and its own rule. *)
Lemma fix_class_context_applyPatch :
  fix_class_context = applyPatch target [(include_set, include_set)].
Proof. reflexivity. Qed.

(** Every way a run can go, by the state of the target and the device. *)
Lemma applyPatch_run (path : string) (rules : list rule) (w : world) :
  applyPatch path rules w =
  match files w !! path with
  | None => (Raise FileNotFoundError, w)
  | Some f =>
      if negb (readable f) then (Raise PermissionError, w)
      else if negb (decodable f)
      then (Raise UnicodeDecodeError, emit (OpenedForRead path) w)
      else if negb (writable f)
      then (Raise PermissionError,
            emit (ReadAll path) (emit (OpenedForRead path) w))
      else
        let out := written rules f in
        let opened :=
          emit (Truncated path)
            (set_file path (with_data f EmptyString)
               (emit (ReadAll path) (emit (OpenedForRead path) w))) in
        match room w with
        | Some k =>
            if Nat.leb (String.length out) k
            then (Ok tt, emit (Wrote path out)
                           (set_file path (with_data f out) opened))
            else (Raise OSError_ENOSPC,
                  emit (Wrote path (take k out))
                    (set_file path (with_data f (take k out)) opened))
        | None => (Ok tt, emit (Wrote path out)
                            (set_file path (with_data f out) opened))
        end
  end.
Proof.
  unfold applyPatch, bind, open_r.
  destruct (files w !! path) as [f|] eqn:Hf; [|reflexivity].
  destruct (readable f); [|reflexivity]. cbn [negb].
  unfold read. cbn [h_file h_path].
  destruct (decodable f); [|reflexivity]. cbn [negb].
  unfold open_w. cbn [emit files]. rewrite Hf.
  destruct (writable f); [|reflexivity]. cbn [negb].
  unfold write, written. cbn [emit set_file room h_path h_file with_data data
    readable writable decodable].
  destruct (room w) as [k|]; [|reflexivity].
  destruct (Nat.leb _ k); reflexivity.
Qed.

End IOFacts.

(** ** The replacement of one rule *)

Section Replace.

Example replace_resumes_behind_match :
  PyStr.replace "aba" "X" "ababaaba" = "XbaX".
Proof. reflexivity. Qed.

Example replace_leaves_replacement_alone :
  PyStr.replace "a" "aa" "aba" = "aabaa".
Proof. reflexivity. Qed.

Example replace_empty_in_abc : PyStr.replace "" "-" "abc" = "-a-b-c-".
Proof. reflexivity. Qed.

Example replace_empty_in_empty : PyStr.replace "" "x" "" = "x".
Proof. reflexivity. Qed.

(** C2: one rule replaces every non-overlapping occurrence of its pattern,
    scanning left to right and resuming right behind each replacement:
    for a pattern that is not empty, the result of applying the rule is
    the one text that the scan the specification describes produces;
    rule [("aa", "b")] turns ["aaa"] into ["ba"]. *)
Theorem replace_nonoverlapping :
  apply_rule ("aa", "b") "aaa" = "ba" /\
  forall old new s t : string,
    old <> EmptyString ->
    (Replaced old new s t <-> t = apply_rule (old, new) s).
Proof.
  split; [reflexivity |].
  intros old new s t Hne. unfold apply_rule. cbn [fst snd].
  rewrite (replace_nonempty old new Hne). split.
  - now apply Replaced_unique.
  - intros ->. apply (Replaced_scan old new Hne s 0).
Qed.

Lemma replace_nonoverlapping_witness :
  "aa" <> EmptyString /\ Replaced "aa" "b" "aaaa" "bb".
Proof.
  split; [discriminate |].
  apply (proj2 replace_nonoverlapping "aa" "b" "aaaa" "bb");
    [discriminate | reflexivity].
Defined.





Lemma concat_cons (x : string) (l : list string) :
  String.concat EmptyString (x :: l) = x +:+ String.concat EmptyString l.
Proof.
  destruct l as [|y l]; [|reflexivity].
  cbn [String.concat]. now rewrite str_app_empty_r.
Qed.

Lemma interleave_insert_everywhere (r s : string) :
  PyStr.interleave r s = insert_everywhere r s.
Proof.
  unfold insert_everywhere. induction s as [|c s IH]; [reflexivity |].
  cbn [PyStr.interleave list_ascii_of_string map].
  rewrite concat_cons, IH, !str_app_assoc. reflexivity.
Qed.

Lemma interleave_length (r s : string) :
  String.length (PyStr.interleave r s)
  = String.length s + (String.length s + 1) * String.length r.
Proof.
  induction s as [|c s IH]; cbn [PyStr.interleave String.length].
  - lia.
  - rewrite str_length_app. cbn [String.length]. rewrite IH. lia.
Qed.

(** C10: an empty pattern is not refused: for a text of [n] characters the
    replacement is put in front of each character and once at the end,
    [n + 1] times in all. *)
Theorem replace_empty_pattern (r s : string) :
  apply_rule (EmptyString, r) s = insert_everywhere r s /\
  String.length (apply_rule (EmptyString, r) s)
  = String.length s + (String.length s + 1) * String.length r.
Proof.
  split; [apply interleave_insert_everywhere | apply interleave_length].
Qed.

End Replace.

(** ** The pipeline *)

Section Pipeline.

Example universal_newlines_all_three :
  universal_newlines ("a" +:+ crlf +:+ "b" +:+ cr +:+ "c" +:+ lf +:+ cr +:+ crlf)
  = "a" +:+ lf +:+ "b" +:+ lf +:+ "c" +:+ lf +:+ lf +:+ lf.
Proof. reflexivity. Qed.

Example script_on_plain_source :
  let w := one_file target (posix_lines "#include <set>" "int x;") None in
  fix_class_context w
  = (Ok tt,
     World (files w) None
       [OpenedForRead target; ReadAll target; Truncated target;
        Wrote target (posix_lines "#include <set>" "int x;")]).
Proof. vm_compute. reflexivity. Qed.

Lemma content_at_written (path : string) (f : file) (e : event) (w : world) :
  content_at (emit e (set_file path f w)) path = Some (data f).
Proof.
  unfold content_at. cbn [emit set_file files].
  now rewrite lookup_insert_eq.
Qed.

Lemma content_at_file (w : world) (path s : string) :
  content_at w path = Some s ->
  exists f, files w !! path = Some f /\ data f = s.
Proof.
  unfold content_at. destruct (files w !! path) as [f|]; [|discriminate].
  intros [= <-]. now exists f.
Qed.

(** A run that succeeds found the file, and leaves it holding the rules
    applied to the text read, with the four file-system steps logged. *)
Lemma applyPatch_ok (path : string) (rules : list rule) (w : world) :
  fst (applyPatch path rules w) = Ok tt ->
  exists f,
    files w !! path = Some f /\
    content_at (snd (applyPatch path rules w)) path = Some (written rules f) /\
    log (snd (applyPatch path rules w))
    = (log w ++ [OpenedForRead path; ReadAll path; Truncated path;
                 Wrote path (written rules f)])%list.
Proof.
  rewrite applyPatch_run.
  destruct (files w !! path) as [f|]; [|discriminate].
  destruct (readable f); [|discriminate].
  destruct (decodable f); [|discriminate].
  destruct (writable f); [|discriminate].
  cbn [negb]. intros H. exists f. split; [reflexivity |].
  assert (Hlog : forall l (a b c d : event),
             ((((l ++ [a]) ++ [b]) ++ [c]) ++ [d] = l ++ [a; b; c; d])%list)
    by (intros; now rewrite <- !List.app_assoc).
  destruct (room w) as [k|].
  - destruct (Nat.leb _ k); [|discriminate].
    cbn [snd]. rewrite content_at_written. split; [reflexivity |].
    cbn [emit set_file log]. apply Hlog.
  - cbn [snd]. rewrite content_at_written. split; [reflexivity |].
    cbn [emit set_file log]. apply Hlog.
Qed.

(** The run succeeds on a file that is there, may be read and written and
    decodes, when the device has room for the new content. *)
Lemma applyPatch_succeeds (path : string) (rules : list rule) (w : world)
    (f : file) :
  files w !! path = Some f ->
  readable f = true -> decodable f = true -> writable f = true ->
  (forall k, room w = Some k -> String.length (written rules f) <= k) ->
  fst (applyPatch path rules w) = Ok tt.
Proof.
  intros Hf Hr Hd Hw Hroom. rewrite applyPatch_run, Hf, Hr, Hd, Hw.
  cbn [negb]. destruct (room w) as [k|]; [|reflexivity].
  specialize (Hroom k eq_refl). apply Nat.leb_le in Hroom.
  now rewrite Hroom.
Qed.

(** After a successful run the file holds the rules applied to the text
    that was read from it. *)
Lemma applyPatch_ok_content (path : string) (rules : list rule) (w : world)
    (s : string) :
  content_at w path = Some s ->
  fst (applyPatch path rules w) = Ok tt ->
  content_at (snd (applyPatch path rules w)) path
  = Some (apply_rules rules (universal_newlines s)).
Proof.
  intros Hs Hok.
  destruct (applyPatch_ok path rules w Hok) as (f & Hf & Hc & _).
  destruct (content_at_file w path s Hs) as (f' & Hf' & <-).
  rewrite Hf in Hf'. injection Hf' as <-.
  now rewrite Hc, written_eq.
Qed.

(** C1, as the code has it: after a successful run the file holds the
    rules applied in sequence to the text read from it, which is the
    initial content with every line end turned into a line feed; for an
    initial content without carriage returns that is the rules applied to
    the initial content itself. *)
Theorem applyPatch_content (path : string) (rules : list rule) (w : world)
    (s : string) :
  content_at w path = Some s ->
  fst (applyPatch path rules w) = Ok tt ->
  content_at (snd (applyPatch path rules w)) path
  = Some (apply_rules rules (universal_newlines s)) /\
  (has_cr s = false ->
   content_at (snd (applyPatch path rules w)) path
   = Some (apply_rules rules s)).
Proof.
  intros Hs Hok. rewrite (applyPatch_ok_content path rules w s Hs Hok).
  split; [reflexivity |].
  intros Hcr. now rewrite universal_newlines_id.
Qed.

Lemma applyPatch_content_witness :
  let w := one_file "f.txt" "a-b-a" None in
  content_at w "f.txt" = Some "a-b-a" /\
  fst (applyPatch "f.txt" [("a", "b"); ("b", "c")] w) = Ok tt /\
  has_cr "a-b-a" = false /\
  content_at (snd (applyPatch "f.txt" [("a", "b"); ("b", "c")] w)) "f.txt"
  = Some "c-c-c".
Proof.
  cbv zeta. split; [reflexivity |]. split; [reflexivity |].
  split; [reflexivity |].
  apply (applyPatch_content "f.txt" [("a", "b"); ("b", "c")]
           (one_file "f.txt" "a-b-a" None) "a-b-a"); reflexivity.
Defined.

(** C1 as stated fails on a file in which one line ends with a carriage
    return and a line feed: the run succeeds, and the file holds the rule
    applied to the text read, not to the characters that were in it. *)
Lemma applyPatch_content_counterexample :
  let s := dos_then_posix "a" "b" in
  let w := one_file "f.txt" s None in
  content_at w "f.txt" = Some s /\
  fst (applyPatch "f.txt" [("a", "c")] w) = Ok tt /\
  apply_rules [("a", "c")] s = dos_then_posix "c" "b" /\
  content_at (snd (applyPatch "f.txt" [("a", "c")] w)) "f.txt"
  = Some (posix_lines "c" "b") /\
  content_at (snd (applyPatch "f.txt" [("a", "c")] w)) "f.txt"
  <> Some (apply_rules [("a", "c")] s).
Proof.
  cbv zeta. split; [reflexivity |]. split; [reflexivity |].
  split; [reflexivity |]. split; [reflexivity |]. vm_compute. discriminate.
Qed.

Lemma apply_rules_absent (rules : list rule) (s : string) :
  Forall (fun r : rule => PyStr.contains (fst r) s = false) rules ->
  apply_rules rules s = s.
Proof.
  induction 1 as [|r rules Hr _ IH]; [reflexivity |].
  change (apply_rules (r :: rules) s) with (apply_rules rules (apply_rule r s)).
  unfold apply_rule. now rewrite replace_absent.
Qed.

(** C4, as the code has it: a rule whose pattern does not occur in the
    current content changes nothing and raises nothing; and when no
    pattern of the rule list occurs in the content of a file that has no
    carriage return in it, a successful run leaves the file character for
    character as it was. *)
Theorem absent_patterns_preserve :
  (forall (r : rule) (content : string),
     PyStr.contains (fst r) content = false -> apply_rule r content = content) /\
  (forall (path : string) (rules : list rule) (w : world) (s : string),
     content_at w path = Some s ->
     has_cr s = false ->
     Forall (fun r : rule => PyStr.contains (fst r) s = false) rules ->
     fst (applyPatch path rules w) = Ok tt ->
     content_at (snd (applyPatch path rules w)) path = Some s).
Proof.
  split.
  - intros r content H. now apply replace_absent.
  - intros path rules w s Hs Hcr Hno Hok.
    rewrite (applyPatch_ok_content path rules w s Hs Hok).
    rewrite universal_newlines_id by exact Hcr.
    now rewrite apply_rules_absent.
Qed.

Lemma absent_patterns_preserve_witness :
  let w := one_file "f.txt" "hello world" None in
  let rules := [("xyz", "a"); ("low", "high")] in
  content_at w "f.txt" = Some "hello world" /\
  has_cr "hello world" = false /\
  Forall (fun r : rule => PyStr.contains (fst r) "hello world" = false) rules /\
  fst (applyPatch "f.txt" rules w) = Ok tt /\
  content_at (snd (applyPatch "f.txt" rules w)) "f.txt" = Some "hello world".
Proof.
  cbv zeta.
  assert (H : Forall (fun r : rule => PyStr.contains (fst r) "hello world" = false)
                [("xyz", "a"); ("low", "high")])
    by (repeat constructor).
  split; [reflexivity |]. split; [reflexivity |]. split; [exact H |].
  split; [reflexivity |].
  exact (proj2 absent_patterns_preserve "f.txt" _
           (one_file "f.txt" "hello world" None) "hello world"
           eq_refl eq_refl H eq_refl).
Defined.

(** C4 as stated fails on a file in which one line ends with a carriage
    return and a line feed: no pattern occurs in it, the run succeeds,
    and the file is not what it was. *)
Lemma absent_patterns_counterexample :
  let s := dos_then_posix "x" "y" in
  let w := one_file "f.txt" s None in
  content_at w "f.txt" = Some s /\
  Forall (fun r : rule => PyStr.contains (fst r) s = false) [("q", "z")] /\
  fst (applyPatch "f.txt" [("q", "z")] w) = Ok tt /\
  content_at (snd (applyPatch "f.txt" [("q", "z")] w)) "f.txt"
  = Some (posix_lines "x" "y") /\
  content_at (snd (applyPatch "f.txt" [("q", "z")] w)) "f.txt" <> Some s.
Proof.
  cbv zeta. split; [reflexivity |]. split; [repeat constructor |].
  split; [reflexivity |]. split; [reflexivity |]. vm_compute. discriminate.
Qed.

(** C5, as the code has it: with an empty rule list the file is still
    opened, read, emptied and written, and a successful run leaves in it
    the text read, which is the original content with every line end
    turned into a line feed; a content without carriage returns, such as
    ["hello"], is written back as it was. *)
Theorem empty_rules_rewrite (path : string) (w : world) (s : string) :
  content_at w path = Some s ->
  fst (applyPatch path [] w) = Ok tt ->
  log (snd (applyPatch path [] w))
  = (log w ++ [OpenedForRead path; ReadAll path; Truncated path;
               Wrote path (universal_newlines s)])%list /\
  content_at (snd (applyPatch path [] w)) path = Some (universal_newlines s) /\
  (has_cr s = false -> content_at (snd (applyPatch path [] w)) path = Some s).
Proof.
  intros Hs Hok.
  destruct (applyPatch_ok path [] w Hok) as (f & Hf & Hc & Hl).
  destruct (content_at_file w path s Hs) as (f' & Hf' & <-).
  rewrite Hf in Hf'. injection Hf' as <-.
  rewrite written_eq in Hc, Hl. cbn [apply_rules fold_left] in Hc, Hl.
  split; [exact Hl |]. split; [exact Hc |].
  intros Hcr. now rewrite Hc, universal_newlines_id.
Qed.

Lemma empty_rules_rewrite_witness :
  let w := one_file "f.txt" "hello" None in
  content_at w "f.txt" = Some "hello" /\
  fst (applyPatch "f.txt" [] w) = Ok tt /\
  has_cr "hello" = false /\
  log (snd (applyPatch "f.txt" [] w))
  = [OpenedForRead "f.txt"; ReadAll "f.txt"; Truncated "f.txt";
     Wrote "f.txt" "hello"] /\
  content_at (snd (applyPatch "f.txt" [] w)) "f.txt" = Some "hello".
Proof.
  cbv zeta.
  pose proof (empty_rules_rewrite "f.txt" (one_file "f.txt" "hello" None)
                "hello" eq_refl eq_refl) as (Hl & _ & Hc).
  split; [reflexivity |]. split; [reflexivity |]. split; [reflexivity |].
  split; [exact Hl | exact (Hc eq_refl)].
Defined.

(** C5 as stated fails on a file in which one line ends with a carriage
    return and a line feed: with no rule at all the run succeeds and the
    carriage return is gone. *)
Lemma empty_rules_counterexample :
  let s := dos_then_posix "hello" "world" in
  let w := one_file "f.txt" s None in
  content_at w "f.txt" = Some s /\
  fst (applyPatch "f.txt" [] w) = Ok tt /\
  content_at (snd (applyPatch "f.txt" [] w)) "f.txt"
  = Some (posix_lines "hello" "world") /\
  content_at (snd (applyPatch "f.txt" [] w)) "f.txt" <> Some s.
Proof.
  cbv zeta. split; [reflexivity |]. split; [reflexivity |].
  split; [reflexivity |]. vm_compute. discriminate.
Qed.

(** The middle case of the three below: an exception other than the one
    of the write, with the files as they were. *)
Ltac raised_before_write e :=
  right; left; exists e; repeat split; (reflexivity || discriminate).

(** C6, as the code has it: a run ends in one of three ways.  It succeeds
    and the file holds the whole new content; or it raises one exception
    before the file was opened for writing and no file has changed; or
    the write raises for lack of room, and the file, emptied when it was
    opened, holds only the leading characters of the new content that the
    device took: the old content is lost, and nothing of it is mixed with
    the new. *)
Theorem applyPatch_outcomes (path : string) (rules : list rule) (w : world) :
  let r := fst (applyPatch path rules w) in
  let w' := snd (applyPatch path rules w) in
  (r = Ok tt /\
   exists f, files w !! path = Some f /\
             content_at w' path = Some (written rules f))
  \/ (exists e, r = Raise e /\ e <> OSError_ENOSPC /\ files w' = files w)
  \/ (r = Raise OSError_ENOSPC /\
      exists f k, files w !! path = Some f /\ room w = Some k /\
                  k < String.length (written rules f) /\
                  content_at w' path = Some (take k (written rules f))).
Proof.
  cbv zeta. rewrite applyPatch_run.
  destruct (files w !! path) as [f|] eqn:Hf;
    [|raised_before_write FileNotFoundError].
  destruct (readable f); cbn [negb];
    [|raised_before_write PermissionError].
  destruct (decodable f); cbn [negb];
    [|raised_before_write UnicodeDecodeError].
  destruct (writable f); cbn [negb];
    [|raised_before_write PermissionError].
  destruct (room w) as [k|] eqn:Hk.
  - destruct (Nat.leb (String.length (written rules f)) k) eqn:E.
    + left. split; [reflexivity |]. exists f. split; [reflexivity |].
      cbn [snd]. apply content_at_written.
    + right; right. split; [reflexivity |]. exists f, k.
      apply Nat.leb_gt in E. repeat split; try assumption.
      cbn [snd]. apply content_at_written.
  - left. split; [reflexivity |]. exists f. split; [reflexivity |].
    cbn [snd]. apply content_at_written.
Qed.

(** C6 as stated fails when the device has room for two characters only:
    the run raises, and the file holds neither what it held before nor
    the new content. *)
Lemma applyPatch_not_atomic :
  let w := one_file "f.txt" "hello" (Some 2) in
  let rules := [("l", "L")] in
  fst (applyPatch "f.txt" rules w) = Raise OSError_ENOSPC /\
  content_at w "f.txt" = Some "hello" /\
  apply_rules rules "hello" = "heLLo" /\
  content_at (snd (applyPatch "f.txt" rules w)) "f.txt" = Some "he" /\
  content_at (snd (applyPatch "f.txt" rules w)) "f.txt" <> content_at w "f.txt" /\
  content_at (snd (applyPatch "f.txt" rules w)) "f.txt"
  <> Some (apply_rules rules "hello").
Proof.
  cbv zeta. repeat split; try reflexivity; vm_compute; discriminate.
Qed.

(** C7: on a path where there is no file the run raises
    [FileNotFoundError], the NotFound error, at the first [open]; the
    world is left as it was, so nothing was opened for writing, emptied
    or written. *)
Theorem missing_file_not_found (path : string) (rules : list rule) (w : world) :
  files w !! path = None ->
  applyPatch path rules w = (Raise FileNotFoundError, w) /\
  error_kind FileNotFoundError = NotFound.
Proof.
  intros H. rewrite applyPatch_run, H. split; reflexivity.
Qed.

Lemma missing_file_not_found_witness :
  let w := one_file "f.txt" "hello" None in
  files w !! "g.txt" = None /\
  applyPatch "g.txt" [("h", "j")] w = (Raise FileNotFoundError, w).
Proof.
  cbv zeta. split; [reflexivity |].
  apply (missing_file_not_found "g.txt" [("h", "j")]
           (one_file "f.txt" "hello" None)). reflexivity.
Defined.

(** C8, as the code has it: the rule of the script replaces
    [#include <set>] by itself and so gives every text back unchanged;
    a successful run of the script therefore writes back the text it
    read, which is the file's content with every line end turned into a
    line feed, and is the content itself when that has no carriage
    return. *)
Theorem script_rule_noop :
  (forall s : string, PyStr.replace include_set include_set s = s) /\
  (forall (w : world) (s : string),
     content_at w target = Some s ->
     fst (fix_class_context w) = Ok tt ->
     content_at (snd (fix_class_context w)) target
     = Some (universal_newlines s) /\
     (has_cr s = false ->
      content_at (snd (fix_class_context w)) target = Some s)).
Proof.
  split; [intros s; apply replace_same |].
  intros w s Hs. rewrite fix_class_context_applyPatch. intros Hok.
  pose proof (applyPatch_ok_content target _ w s Hs Hok) as H.
  cbn [apply_rules fold_left] in H. unfold apply_rule in H.
  cbn [fst snd] in H. rewrite replace_same in H.
  split; [exact H |]. intros Hcr. now rewrite H, universal_newlines_id.
Qed.

Lemma script_rule_noop_witness :
  let s := posix_lines "#include <map>" "#include <set>" in
  let w := one_file target s None in
  content_at w target = Some s /\
  fst (fix_class_context w) = Ok tt /\
  has_cr s = false /\
  content_at (snd (fix_class_context w)) target = Some s.
Proof.
  cbv zeta. split; [reflexivity |]. split; [reflexivity |].
  split; [reflexivity |].
  apply (proj2 script_rule_noop
           (one_file target (posix_lines "#include <map>" "#include <set>") None)
           (posix_lines "#include <map>" "#include <set>"));
    reflexivity.
Defined.

(** C8 as stated fails on a source file in which one line ends with a
    carriage return and a line feed: the script succeeds and the file is
    not rewritten as it was. *)
Lemma script_not_identity :
  let s := dos_then_posix "#include <set>" "#include <map>" in
  let w := one_file target s None in
  content_at w target = Some s /\
  fst (fix_class_context w) = Ok tt /\
  content_at (snd (fix_class_context w)) target
  = Some (posix_lines "#include <set>" "#include <map>") /\
  content_at (snd (fix_class_context w)) target <> Some s.
Proof.
  cbv zeta. split; [reflexivity |]. split; [reflexivity |].
  split; [reflexivity |]. vm_compute. discriminate.
Qed.





End Pipeline.

(** ** More on [str.replace]: lengths and rules that change nothing *)

Section ScanLength.

Variables old new : string.
Hypothesis old_nonempty : old <> EmptyString.

Lemma startswith_length (p s : string) :
  PyStr.startswith p s = true -> String.length p <= String.length s.
Proof.
  intros H. apply startswith_drop in H. rewrite H, str_length_app. lia.
Qed.

(** A replacement no longer than the pattern never makes the text longer. *)
Lemma replace_scan_shrinks (s : string) :
  String.length new <= String.length old ->
  forall k, String.length (PyStr.replace_scan old new k s)
            <= String.length s - k.
Proof.
  intros Hlen. destruct (nonempty_cons old old_nonempty) as (a & p & Heq).
  induction s as [|c s IH]; intros k; [cbn; lia |].
  destruct k as [|k]; [|apply IH].
  cbn [PyStr.replace_scan].
  destruct (PyStr.startswith old (String c s)) eqn:E.
  - apply startswith_length in E. rewrite str_length_app.
    specialize (IH (String.length old - 1)).
    rewrite Heq in *. cbn [String.length] in *. lia.
  - specialize (IH 0). cbn [String.length]. lia.
Qed.

(** A replacement no shorter than the pattern never makes the text
    shorter. *)
Lemma replace_scan_grows (s : string) :
  String.length old <= String.length new ->
  forall k, String.length s - k
            <= String.length (PyStr.replace_scan old new k s).
Proof.
  intros Hlen. destruct (nonempty_cons old old_nonempty) as (a & p & Heq).
  induction s as [|c s IH]; intros k; [cbn; lia |].
  destruct k as [|k]; [|apply IH].
  cbn [PyStr.replace_scan].
  destruct (PyStr.startswith old (String c s)) eqn:E.
  - apply startswith_length in E. rewrite str_length_app.
    specialize (IH (String.length old - 1)).
    rewrite Heq in *. cbn [String.length] in *. lia.
  - specialize (IH 0). cbn [String.length]. lia.
Qed.

Lemma str_app_inv_length (a b x y : string) :
  a +:+ x = b +:+ y -> String.length a = String.length b -> a = b.
Proof.
  revert b; induction a as [|c a IH]; intros [|d b] H Hl;
    try reflexivity; try discriminate.
  rewrite !str_app_cons in H. injection H as -> H.
  f_equal. apply IH; [exact H | now injection Hl].
Qed.

(** When the pattern occurs and the text comes out as it went in, the
    replacement is the pattern. *)
Lemma replace_scan_fixed (s : string) :
  PyStr.contains old s = true ->
  PyStr.replace_scan old new 0 s = s ->
  old = new.
Proof.
  destruct (nonempty_cons old old_nonempty) as (a & p & Heq).
  induction s as [|c s IH]; intros Hin Hfix.
  - rewrite Heq in Hin. discriminate.
  - cbn [PyStr.contains] in Hin.
    destruct (PyStr.startswith old (String c s)) eqn:E.
    + apply startswith_drop in E.
      set (rest := PyStr.drop (String.length old) (String c s)) in *.
      rewrite E, (replace_scan_match old new old_nonempty) in Hfix.
      pose proof (f_equal String.length Hfix) as Hl.
      rewrite !str_length_app in Hl.
      destruct (Nat.lt_trichotomy (String.length new) (String.length old))
        as [Hlt | [Heql | Hgt]].
      * pose proof (replace_scan_shrinks rest ltac:(lia) 0). lia.
      * symmetry. now apply (str_app_inv_length _ _ _ _ Hfix).
      * pose proof (replace_scan_grows rest ltac:(lia) 0). lia.
    + cbn [orb] in Hin.
      rewrite replace_scan_keep in Hfix by exact E.
      injection Hfix as Hfix. now apply IH.
Qed.

End ScanLength.

Section MoreReplace.

Lemma interleave_fixed (new s : string) :
  PyStr.interleave new s = s -> new = EmptyString.
Proof.
  intros H. apply (f_equal String.length) in H.
  rewrite interleave_length in H.
  destruct new as [|c new]; [reflexivity |]. cbn [String.length] in H. lia.
Qed.

Lemma replace_idle (old new s : string) :
  PyStr.contains old s = false \/ old = new -> PyStr.replace old new s = s.
Proof. intros [H | <-]; [now apply replace_absent | apply replace_same]. Qed.

(** X1: a call of [replace] gives the text back unchanged exactly when the
    pattern does not occur in it or the replacement is the pattern
    itself. *)
Theorem replace_unchanged_iff (old new s : string) :
  PyStr.replace old new s = s <->
  PyStr.contains old s = false \/ old = new.
Proof.
  split.
  - intros H. destruct (PyStr.contains old s) eqn:Hin; [right | now left].
    destruct old as [|a p].
    + symmetry. now apply interleave_fixed with s.
    + apply (replace_scan_fixed (String a p) new ltac:(discriminate) s Hin H).
  - apply replace_idle.
Qed.

Lemma replace_unchanged_iff_witness :
  PyStr.replace "b" "c" "aaa" = "aaa" /\
  (PyStr.contains "b" "aaa" = false \/ "b" = "c").
Proof.
  split; [reflexivity |].
  apply (proj1 (replace_unchanged_iff "b" "c" "aaa")). reflexivity.
Defined.

(** X2: a replacement at least as long as the pattern never shortens the
    text, one at most as long never lengthens it, and one of the same
    length keeps the length of the text. *)
Theorem replace_length (old new s : string) :
  (String.length old <= String.length new ->
   String.length s <= String.length (PyStr.replace old new s)) /\
  (String.length new <= String.length old ->
   String.length (PyStr.replace old new s) <= String.length s) /\
  (String.length new = String.length old ->
   String.length (PyStr.replace old new s) = String.length s).
Proof.
  assert (Hup : String.length old <= String.length new ->
                String.length s <= String.length (PyStr.replace old new s)).
  { intros H. destruct old as [|a p].
    - unfold PyStr.replace. rewrite interleave_length. lia.
    - pose proof (replace_scan_grows (String a p) new ltac:(discriminate) s H 0).
      unfold PyStr.replace. lia. }
  assert (Hdown : String.length new <= String.length old ->
                  String.length (PyStr.replace old new s) <= String.length s).
  { intros H. destruct old as [|a p].
    - destruct new; [|cbn in H; lia].
      unfold PyStr.replace. now rewrite interleave_empty.
    - pose proof (replace_scan_shrinks (String a p) new ltac:(discriminate) s H 0).
      unfold PyStr.replace. lia. }
  split; [exact Hup |]. split; [exact Hdown |].
  intros H. apply Nat.le_antisymm; [apply Hdown | apply Hup]; lia.
Qed.

Lemma replace_length_witness :
  String.length "aa" = String.length "xy" /\
  String.length (PyStr.replace "xy" "aa" "xyzxy") = String.length "xyzxy".
Proof.
  split; [reflexivity |].
  apply (proj2 (proj2 (replace_length "xy" "aa" "xyzxy"))). reflexivity.
Defined.

(** X3: a list of rules each of which either has a pattern that does not
    occur in the content or replaces its pattern by itself leaves the
    content as it is. *)
Theorem idle_rules_identity (rules : list rule) (s : string) :
  Forall (fun r : rule => PyStr.contains (fst r) s = false \/ fst r = snd r)
    rules ->
  apply_rules rules s = s.
Proof.
  induction 1 as [|r rules Hr _ IH]; [reflexivity |].
  change (apply_rules (r :: rules) s) with (apply_rules rules (apply_rule r s)).
  assert (Hs : apply_rule r s = s)
    by (unfold apply_rule; now apply replace_idle).
  now rewrite Hs.
Qed.

Lemma idle_rules_identity_witness :
  Forall (fun r : rule => PyStr.contains (fst r) "a-b" = false \/ fst r = snd r)
    [("x", "y"); ("a", "a")] /\
  apply_rules [("x", "y"); ("a", "a")] "a-b" = "a-b".
Proof.
  assert (H : Forall (fun r : rule =>
                        PyStr.contains (fst r) "a-b" = false \/ fst r = snd r)
                [("x", "y"); ("a", "a")]).
  { constructor; [left; reflexivity |].
    constructor; [right; reflexivity | constructor]. }
  split; [exact H | exact (idle_rules_identity _ "a-b" H)].
Defined.

End MoreReplace.

(** ** More on the pipeline: what a run touches, when it succeeds, what
    running it again does *)

Section MorePipeline.

Lemma has_cr_cons (c : ascii) (t : string) :
  has_cr (String c t) = Ascii.eqb CR c || has_cr t.
Proof.
  unfold has_cr. cbn [PyStr.contains PyStr.startswith].
  destruct (Ascii.eqb CR c); destruct t; reflexivity.
Qed.

(** What [read()] returns has no carriage return in it. *)
Lemma has_cr_universal_newlines (s : string) :
  has_cr (universal_newlines s) = false.
Proof.
  enough (H : forall n s, String.length s <= n ->
                          has_cr (universal_newlines s) = false)
    by now apply (H (String.length s)).
  clear s. induction n as [|n IH]; intros s Hn.
  - destruct s; [reflexivity | cbn in Hn; lia].
  - destruct s as [|c s]; [reflexivity |]. cbn [String.length] in Hn.
    cbn [universal_newlines]. destruct (Ascii.eqb c CR) eqn:Ec.
    + destruct s as [|d s]; [reflexivity |]. cbn [String.length] in Hn.
      destruct (Ascii.eqb d LF); rewrite has_cr_cons.
      * rewrite IH by lia. reflexivity.
      * rewrite IH by (cbn [String.length]; lia). reflexivity.
    + rewrite has_cr_cons, Ascii.eqb_sym, Ec, IH by lia. reflexivity.
Qed.

(** A text in which a pattern with a carriage return occurs has a carriage
    return. *)
Lemma contains_has_cr (p s : string) :
  has_cr p = true -> PyStr.contains p s = true -> has_cr s = true.
Proof.
  unfold has_cr. intros Hp Hs.
  apply contains_iff in Hp as (l & r & ->).
  apply contains_iff in Hs as (l' & r' & ->).
  apply contains_iff. exists (l' +:+ l), (r +:+ r').
  now rewrite !str_app_assoc.
Qed.

Lemma files_after_write (path : string) (f g : file) (e1 e2 : event) (w : world) :
  files (emit e1 (set_file path f (emit e2 (set_file path g w))))
  = <[path := f]> (files w).
Proof. cbn [emit set_file files]. apply insert_insert_eq. Qed.

(** All there is to know about a run that succeeded. *)
Lemma applyPatch_ok_state (path : string) (rules : list rule) (w : world) :
  fst (applyPatch path rules w) = Ok tt ->
  exists f,
    files w !! path = Some f /\
    readable f = true /\ decodable f = true /\ writable f = true /\
    (forall k, room w = Some k -> String.length (written rules f) <= k) /\
    files (snd (applyPatch path rules w))
    = <[path := with_data f (written rules f)]> (files w) /\
    room (snd (applyPatch path rules w)) = room w.
Proof.
  rewrite applyPatch_run.
  destruct (files w !! path) as [f|]; [|discriminate].
  destruct (readable f) eqn:Hr; [|discriminate].
  destruct (decodable f) eqn:Hd; [|discriminate].
  destruct (writable f) eqn:Hw; [|discriminate].
  cbn [negb]. intros H. exists f. split; [reflexivity |].
  split; [exact Hr |]. split; [exact Hd |]. split; [exact Hw |].
  destruct (room w) as [k|] eqn:Hk.
  - destruct (Nat.leb _ k) eqn:E; [|discriminate]. apply Nat.leb_le in E.
    cbn [snd]. rewrite files_after_write. split; [|now split].
    now intros k' [= <-].
  - cbn [snd]. rewrite files_after_write. split; [|now split].
    intros k' [=].
Qed.

(** X4: whatever the outcome, a run leaves every file other than its
    target as it found it. *)
Theorem applyPatch_other_files (path other : string) (rules : list rule)
    (w : world) :
  other <> path ->
  files (snd (applyPatch path rules w)) !! other = files w !! other.
Proof.
  intros Hne. rewrite applyPatch_run.
  destruct (files w !! path) as [f|]; [|reflexivity].
  destruct (readable f); [|reflexivity].
  destruct (decodable f); [|reflexivity].
  destruct (writable f); [|reflexivity].
  cbn [negb].
  destruct (room w) as [k|]; [destruct (Nat.leb _ k) |];
    cbn [snd]; rewrite files_after_write; now apply lookup_insert_ne.
Qed.

Lemma applyPatch_other_files_witness :
  "g.txt" <> "f.txt" /\
  files (snd (applyPatch "f.txt" [("a", "b")] (busy_world "f.txt" "aaa")))
    !! "g.txt"
  = files (busy_world "f.txt" "aaa") !! "g.txt".
Proof.
  split; [discriminate |].
  apply (applyPatch_other_files "f.txt" "g.txt"). discriminate.
Defined.



(** X6: on a target whose permissions let the process read it and not
    write it, the run raises [PermissionError] at [open(path, 'w')], after
    reading the file and before emptying it: no file has changed. *)
Theorem write_permission_refused (path : string) (rules : list rule)
    (w : world) (f : file) :
  files w !! path = Some f ->
  readable f = true -> decodable f = true -> writable f = false ->
  fst (applyPatch path rules w) = Raise PermissionError /\
  files (snd (applyPatch path rules w)) = files w /\
  log (snd (applyPatch path rules w))
  = (log w ++ [OpenedForRead path; ReadAll path])%list.
Proof.
  intros Hf Hr Hd Hw. rewrite applyPatch_run, Hf, Hr, Hd, Hw.
  cbn [negb fst snd emit files log]. repeat split.
  now rewrite <- List.app_assoc.
Qed.

Lemma write_permission_refused_witness :
  let f := File "hello" true false true in
  let w := World {[ "f.txt" := f ]} None [] in
  files w !! "f.txt" = Some f /\
  fst (applyPatch "f.txt" [("h", "j")] w) = Raise PermissionError /\
  files (snd (applyPatch "f.txt" [("h", "j")] w)) = files w.
Proof.
  cbv zeta. split; [reflexivity |].
  pose proof (write_permission_refused "f.txt" [("h", "j")]
                (World {[ "f.txt" := File "hello" true false true ]} None [])
                (File "hello" true false true)
                eq_refl eq_refl eq_refl eq_refl) as (H1 & H2 & _).
  split; [exact H1 | exact H2].
Defined.

(** X7: on a target whose bytes do not decode the run raises
    [UnicodeDecodeError] at [read()], before the file is opened for
    writing: no file has changed. *)
Theorem undecodable_target (path : string) (rules : list rule) (w : world)
    (f : file) :
  files w !! path = Some f ->
  readable f = true -> decodable f = false ->
  fst (applyPatch path rules w) = Raise UnicodeDecodeError /\
  files (snd (applyPatch path rules w)) = files w /\
  log (snd (applyPatch path rules w)) = (log w ++ [OpenedForRead path])%list.
Proof.
  intros Hf Hr Hd. rewrite applyPatch_run, Hf, Hr, Hd.
  cbn [negb fst snd emit files log]. now repeat split.
Qed.

Lemma undecodable_target_witness :
  let f := File "hello" true true false in
  let w := World {[ "f.txt" := f ]} None [] in
  files w !! "f.txt" = Some f /\
  fst (applyPatch "f.txt" [] w) = Raise UnicodeDecodeError /\
  files (snd (applyPatch "f.txt" [] w)) = files w.
Proof.
  cbv zeta. split; [reflexivity |].
  pose proof (undecodable_target "f.txt" []
                (World {[ "f.txt" := File "hello" true true false ]} None [])
                (File "hello" true true false)
                eq_refl eq_refl eq_refl) as (H1 & H2 & _).
  split; [exact H1 | exact H2].
Defined.

(** X8: a run neither creates nor removes a file: whatever the outcome,
    the paths that name a file afterwards are the ones that did before. *)
Theorem applyPatch_same_paths (path : string) (rules : list rule) (w : world) :
  dom (files (snd (applyPatch path rules w))) = dom (files w).
Proof.
  rewrite applyPatch_run.
  destruct (files w !! path) as [f|] eqn:Hf; [|reflexivity].
  assert (Hin : forall g : file, dom (<[path := g]> (files w)) = dom (files w)).
  { intros g. rewrite dom_insert_L. apply subseteq_union_1_L.
    apply singleton_subseteq_l. now apply elem_of_dom_2 with f. }
  destruct (readable f); [|reflexivity].
  destruct (decodable f); [|reflexivity].
  destruct (writable f); [|reflexivity].
  cbn [negb].
  destruct (room w) as [k|]; [destruct (Nat.leb _ k) |];
    cbn [snd]; rewrite files_after_write; apply Hin.
Qed.

(** X9: the rules never see a carriage return, so a rule whose pattern
    has one in it never matches: with a list of such rules a successful
    run leaves the text read, whatever the replacements are. *)
Theorem cr_patterns_never_match (path : string) (rules : list rule)
    (w : world) (s : string) :
  content_at w path = Some s ->
  Forall (fun r : rule => has_cr (fst r) = true) rules ->
  fst (applyPatch path rules w) = Ok tt ->
  content_at (snd (applyPatch path rules w)) path
  = Some (universal_newlines s).
Proof.
  intros Hs Hcr Hok. rewrite (applyPatch_ok_content path rules w s Hs Hok).
  rewrite apply_rules_absent; [reflexivity |].
  eapply List.Forall_impl; [|exact Hcr]. intros r Hr. cbn beta in Hr.
  destruct (PyStr.contains (fst r) (universal_newlines s)) eqn:E;
    [|reflexivity].
  pose proof (contains_has_cr _ _ Hr E) as H.
  now rewrite has_cr_universal_newlines in H.
Qed.

Lemma cr_patterns_never_match_witness :
  let s := dos_then_posix "a" "b" in
  let w := one_file "f.txt" s None in
  content_at w "f.txt" = Some s /\
  Forall (fun r : rule => has_cr (fst r) = true) [(crlf, "<eol>")] /\
  fst (applyPatch "f.txt" [(crlf, "<eol>")] w) = Ok tt /\
  content_at (snd (applyPatch "f.txt" [(crlf, "<eol>")] w)) "f.txt"
  = Some (posix_lines "a" "b").
Proof.
  cbv zeta.
  assert (H : Forall (fun r : rule => has_cr (fst r) = true) [(crlf, "<eol>")])
    by (repeat constructor).
  split; [reflexivity |]. split; [exact H |]. split; [reflexivity |].
  exact (cr_patterns_never_match "f.txt" [(crlf, "<eol>")]
           (one_file "f.txt" (dos_then_posix "a" "b") None)
           (dos_then_posix "a" "b") eq_refl H eq_refl).
Defined.

(** X10: the script can be run again.  After one successful run the target
    has no carriage return in it, a second run succeeds as well, and it
    leaves every file exactly as the first run left it. *)
Theorem script_idempotent (w : world) :
  fst (fix_class_context w) = Ok tt ->
  let w1 := snd (fix_class_context w) in
  (exists s, content_at w1 target = Some s /\ has_cr s = false) /\
  fst (fix_class_context w1) = Ok tt /\
  files (snd (fix_class_context w1)) = files w1.
Proof.
  rewrite fix_class_context_applyPatch. intros Hok. cbv zeta.
  set (rules := [(include_set, include_set)]).
  assert (Hw : forall g, written rules g = universal_newlines (data g)).
  { intros g. rewrite written_eq. unfold rules, apply_rules, apply_rule.
    cbn [fold_left fst snd]. apply replace_same. }
  destruct (applyPatch_ok_state target rules w Hok)
    as (f & Hf & Hr & Hd & Hwr & Hk & Hfiles & Hroom).
  rewrite Hw in Hfiles, Hk.
  set (w1 := snd (applyPatch target rules w)) in *.
  set (f1 := with_data f (universal_newlines (data f))) in *.
  assert (Hf1 : files w1 !! target = Some f1)
    by (rewrite Hfiles; apply lookup_insert_eq).
  assert (Hout : written rules f1 = universal_newlines (data f)).
  { rewrite Hw. unfold f1. cbn [with_data data].
    apply universal_newlines_id, has_cr_universal_newlines. }
  assert (Hok1 : fst (applyPatch target rules w1) = Ok tt).
  { apply applyPatch_succeeds with f1; try assumption.
    intros k Hk1. rewrite Hout. apply Hk. now rewrite <- Hroom. }
  split; [|split; [exact Hok1 |]].
  - exists (universal_newlines (data f)). split.
    + unfold content_at. now rewrite Hf1.
    + apply has_cr_universal_newlines.
  - destruct (applyPatch_ok_state target rules w1 Hok1)
      as (g & Hg & _ & _ & _ & _ & Hfiles1 & _).
    rewrite Hf1 in Hg. injection Hg as <-.
    rewrite Hfiles1, Hout. apply insert_id. exact Hf1.
Qed.

Lemma script_idempotent_witness :
  let w := one_file target (dos_then_posix "#include <set>" "int x;") None in
  fst (fix_class_context w) = Ok tt /\
  fst (fix_class_context (snd (fix_class_context w))) = Ok tt /\
  files (snd (fix_class_context (snd (fix_class_context w))))
  = files (snd (fix_class_context w)).
Proof.
  cbv zeta. split; [reflexivity |].
  exact (proj2 (script_idempotent
                  (one_file target
                     (dos_then_posix "#include <set>" "int x;") None)
                  eq_refl)).
Defined.

(** X11: two successful runs in a row leave the second list of rules
    applied to the text that the second run reads from what the first
    wrote; when the first run wrote no carriage return this is what one
    run with the two lists joined writes. *)
Theorem two_runs_compose (path : string) (rules1 rules2 : list rule)
    (w : world) (s : string) :
  content_at w path = Some s ->
  fst (applyPatch path rules1 w) = Ok tt ->
  let w1 := snd (applyPatch path rules1 w) in
  fst (applyPatch path rules2 w1) = Ok tt ->
  content_at (snd (applyPatch path rules2 w1)) path
  = Some (apply_rules rules2
            (universal_newlines (apply_rules rules1 (universal_newlines s)))) /\
  (has_cr (apply_rules rules1 (universal_newlines s)) = false ->
   content_at (snd (applyPatch path rules2 w1)) path
   = Some (apply_rules (rules1 ++ rules2) (universal_newlines s))).
Proof.
  intros Hs Hok1 w1 Hok2.
  pose proof (applyPatch_ok_content path rules1 w s Hs Hok1) as H1.
  fold w1 in H1.
  rewrite (applyPatch_ok_content path rules2 w1 _ H1 Hok2).
  split; [reflexivity |].
  intros Hcr. rewrite universal_newlines_id by exact Hcr.
  unfold apply_rules. now rewrite fold_left_app.
Qed.

Lemma two_runs_compose_witness :
  let w := one_file "f.txt" "a" None in
  content_at w "f.txt" = Some "a" /\
  fst (applyPatch "f.txt" [("a", "b")] w) = Ok tt /\
  fst (applyPatch "f.txt" [("b", "c")]
         (snd (applyPatch "f.txt" [("a", "b")] w))) = Ok tt /\
  content_at (snd (applyPatch "f.txt" [("b", "c")]
                     (snd (applyPatch "f.txt" [("a", "b")] w)))) "f.txt"
  = Some "c".
Proof.
  cbv zeta. split; [reflexivity |]. split; [reflexivity |].
  split; [reflexivity |].
  exact (proj2 (two_runs_compose "f.txt" [("a", "b")] [("b", "c")]
                  (one_file "f.txt" "a" None) "a" eq_refl eq_refl eq_refl)
           eq_refl).
Defined.

End MorePipeline.
